(** * amiet_tools: the multiple-gusts directivity driver

    A shallow embedding of [test_scripts/TestScript2_MultGustsPlots.py].

    The script is straight-line numerical code over NumPy arrays.  It is
    given two readings here.

    - The exact reading: every expression of the script evaluated without
      rounding.  Python floats are the real numbers of the Standard
      Library (so [np.pi] is [PI]), complex floats are pairs of reals and
      NumPy arrays are index functions whose shape is recorded in the
      type.  Overflow, NaN and rounding do not exist in this reading; a
      result stated over it is a statement about the formulas of the
      script, and holds of the running program where the program computes
      them exactly or the statement leaves a margin.
    - The binary64 reading (module [Binary64]): the same expressions
      evaluated in IEEE double precision, bit for bit as CPython and NumPy
      evaluate them.  It is used to run the script's arithmetic on
      concrete inputs, and shows where rounding or overflow makes the
      program depart from the exact values.

    The functions of the [amiet_tools] package the script calls
    ([create_airf_mesh], [Phi_2D], [delta_p], [dipole3D]) are not part of
    the script: they are section variables, so every result holds for
    whatever arrays they return. *)

From Stdlib Require Import Reals Lra Lia ZArith List String Psatz.
From Stdlib Require PrimFloat FloatOps SpecFloat Uint63 QArith.
Import ListNotations.

#[local] Open Scope R_scope.

(** ** Complex scalars ([complex128] without rounding) *)

Module NumPy.

Definition C : Type := (R * R)%type.

Definition Re (z : C) : R := fst z.
Definition Im (z : C) : R := snd z.

Definition RtoC (x : R) : C := (x, 0).

Definition Cadd (z w : C) : C := (Re z + Re w, Im z + Im w).
Definition Copp (z : C) : C := (- Re z, - Im z).
Definition Csub (z w : C) : C := Cadd z (Copp w).
Definition Cmul (z w : C) : C :=
  (Re z * Re w - Im z * Im w, Re z * Im w + Im z * Re w).
Definition Cconj (z : C) : C := (Re z, - Im z).

(** [z / w], the quotient NumPy computes for two complex operands. *)
Definition Cdiv (z w : C) : C :=
  ((Re z * Re w + Im z * Im w) / (Re w * Re w + Im w * Im w),
   (Im z * Re w - Re z * Im w) / (Re w * Re w + Im w * Im w)).

(** Squared modulus. *)
Definition Cnorm2 (z : C) : R := Re z * Re z + Im z * Im z.

(** The order NumPy uses for complex values in [max]: lexicographic on
    (real part, imaginary part). *)
Definition Cmax (z w : C) : C :=
  if Rlt_dec (Re z) (Re w) then w
  else if Rlt_dec (Re w) (Re z) then z
  else if Rlt_dec (Im z) (Im w) then w else z.

(** ** Arrays

    A one-dimensional array of length [n] and a two-dimensional array of
    shape [(m, n)] are index functions; the shape is a phantom argument.
    Entries outside the shape are never read by the operations below. *)

Definition Vector (n : nat) : Type := nat -> C.
Definition Matrix (m n : nat) : Type := nat -> nat -> C.

(** [np.zeros((n,), 'complex')] and [np.zeros((m, n), 'complex')] *)
Definition zeros (n : nat) : Vector n := fun _ => RtoC 0.
Definition zeros2 (m n : nat) : Matrix m n := fun _ _ => RtoC 0.

(** Sum of [f 0 .. f (n-1)]. *)
Fixpoint Csum (n : nat) (f : nat -> C) : C :=
  match n with
  | O => RtoC 0
  | S k => Cadd (Csum k f) (f k)
  end.

(** [v.conj()] *)
Definition conj {n : nat} (v : Vector n) : Vector n := fun i => Cconj (v i).

(** [np.outer(u, w)] *)
Definition outer {m n : nat} (u : Vector m) (w : Vector n) : Matrix m n :=
  fun i j => Cmul (u i) (w j).

(** [A * s] for a scalar [s] (a Python number is promoted to complex). *)
Definition mscale {m n : nat} (A : Matrix m n) (s : R) : Matrix m n :=
  fun i j => Cmul (A i j) (RtoC s).

(** [A @ B] *)
Definition matmul {m n o : nat} (A : Matrix m n) (B : Matrix n o)
  : Matrix m o :=
  fun i j => Csum n (fun k => Cmul (A i k) (B k j)).

(** [A.conj()] and [A.T] *)
Definition mconj {m n : nat} (A : Matrix m n) : Matrix m n :=
  fun i j => Cconj (A i j).
Definition transpose {m n : nat} (A : Matrix m n) : Matrix n m :=
  fun i j => A j i.

(** [np.diag(A)] of a square matrix *)
Definition diag {n : nat} (A : Matrix n n) : Vector n := fun i => A i i.

(** [np.real(v)], a real array *)
Definition real {n : nat} (v : Vector n) : nat -> R := fun i => Re (v i).

(** [acc += r] for a complex array [acc] and a real array [r]: the real
    values are promoted to complex and added entry by entry. *)
Definition iadd_real {n : nat} (acc : Vector n) (r : nat -> R) : Vector n :=
  fun i => Cadd (acc i) (RtoC (r i)).

(** [v.max()] over the [n] entries of [v] ([n] positive). *)
Fixpoint vmax (n : nat) (v : nat -> C) : C :=
  match n with
  | O => v O
  | S O => v O
  | S k => Cmax (vmax k v) (v k)
  end.

(** [np.linspace(start, stop, num)]: [num] evenly spaced samples with both
    end points; a negative [num] raises [ValueError].  Exact reading: the
    points are exactly uniform and the last one is exactly [stop]; in
    binary64 entry [i] is the rounded [i*step + start]
    ([Binary64.linspace]). *)
Definition linspace_nat (start stop : R) (num : nat) : list R :=
  map (fun i => start + INR i * ((stop - start) / INR (num - 1)))
      (seq 0 num).

Definition linspace (start stop : R) (num : Z) : option (list R) :=
  if (num <? 0)%Z then None
  else Some (linspace_nat start stop (Z.to_nat num)).

(** [a[i]] for a one-dimensional real array and [0 <= i]; [IndexError] is
    [None]. *)
Definition getitem (a : list R) (i : nat) : option R := nth_error a i.

End NumPy.

Import NumPy.

(** ** Scalar parameters of the script (lines 42-81) *)

Module Script.

Definition b : R := 0.075.
Definition d : R := 0.225.
Definition Ux : R := 60.

Definition turb_intensity : R := 0.025.
Definition length_scale : R := 0.007.

Definition u_mean2 : R := (Ux * turb_intensity) ^ 2.

Definition c0 : R := 340.
Definition rho0 : R := 1.2.

Definition kc : R := 0.5.

Definition f0 : R := kc * c0 / (2 * PI * (2 * b)).

Definition ac_wavelength : R := c0 / f0.

Definition k0 : R := 2 * PI / ac_wavelength.

Definition Mach : R := Ux / c0.
Definition beta : R := sqrt (1 - Mach ^ 2).

Definition Kx : R := 2 * PI * f0 / Ux.

Definition ky_crit : R := Kx * Mach / beta.

Definition mu_h : R := Kx * b / (beta ^ 2).
Definition mu_a : R := mu_h * Mach.

Definition dipole_axis : string := "z".
Definition flow_dir : string := "x".
Definition flow_param : string * R := (flow_dir, Mach).

Definition Nx : nat := 100.
Definition Ny : nat := 101.

Definition R_farfield : R := 50.
Definition M_farfield : nat := 181.

(** The reference value of the dB scale (line 170). *)
Definition Spp_ref : R := 4.296e-8.

End Script.

(** ** The binary64 reading

    The expressions of the script evaluated in IEEE binary64 as CPython
    and NumPy evaluate them: [np.pi] is the double nearest to pi and every
    literal is rounded to the nearest double.  First the frequency of
    operation, the same expression as [Script.f0]. *)

Module Binary64.

Import PrimFloat.
#[local] Open Scope float_scope.

Definition pi : float := 0x1.921fb54442d18p+1.

Definition b : float := 0x1.3333333333333p-4.
Definition c0 : float := 340.
Definition kc : float := 0.5.

Definition f0 : float := kc * c0 / (2 * pi * (2 * b)).

(** [repr(f0)] is [180.37560217081472]. *)
Definition f0_printed : float := 0x1.68c04eed7fe96p+7.

(** *** The rest of the scalar prelude (lines 42-76)

    [x**2] is C's [pow(x, 2.0)], the correctly rounded square. *)

Definition d : float := 0x1.ccccccccccccdp-3.
Definition Ux : float := 60.

Definition ac_wavelength : float := c0 / f0.
Definition k0 : float := 2 * pi / ac_wavelength.
Definition Mach : float := Ux / c0.
Definition beta : float := sqrt (1 - Mach * Mach).
Definition Kx : float := 2 * pi * f0 / Ux.
Definition ky_crit : float := Kx * Mach / beta.
Definition mu_h : float := Kx * b / (beta * beta).
Definition mu_a : float := mu_h * Mach.

(** *** Integers and floats *)

(** The float of a Python [int] (exact below [2^53]). *)
Definition float_of_Z (z : Z) : float :=
  match z with
  | Z0 => 0
  | Zpos _ => of_uint63 (Uint63.of_Z z)
  | Zneg q => - of_uint63 (Uint63.of_Z (Zpos q))
  end.

(** [np.int(np.ceil(x))]: [int] raises [OverflowError] on an infinity and
    [ValueError] on a NaN; both are [None]. *)
Definition ceil_int (x : float) : option Z :=
  match FloatOps.Prim2SF x with
  | SpecFloat.S754_zero _ => Some 0%Z
  | SpecFloat.S754_finite sg m e =>
      let n := if sg then Zneg m else Zpos m in
      Some (match e with
            | Z0 => n
            | Zpos q => n * Z.pow_pos 2 q
            | Zneg q => - ((- n) / Z.pow_pos 2 q)
            end)%Z
  | _ => None
  end.

(** The rational number a finite double stands for. *)
Definition F2Q (x : float) : QArith_base.Q :=
  match FloatOps.Prim2SF x with
  | SpecFloat.S754_finite sg m e =>
      QArith_base.Qmult
        (QArith_base.inject_Z (if sg then Zneg m else Zpos m))
        (QArith_base.Qpower (QArith_base.inject_Z 2) e)
  | _ => QArith_base.inject_Z 0
  end.

(** *** The sampler (lines 111-131) *)

(** [np.linspace(start, stop, num)] as NumPy computes it:
    [step = (stop - start)/(num - 1)], entry [i] is [i*step + start], and
    the last entry is overwritten with [stop].  A negative [num] raises
    [ValueError]. *)
Definition linspace (start stop : float) (num : Z) : option (list float) :=
  if (num <? 0)%Z then None
  else
    let n := Z.to_nat num in
    let div := float_of_Z (num - 1) in
    let delta := stop - start in
    let y :=
      if (0 <? num - 1)%Z then
        let step := delta / div in
        if step =? 0 then
          map (fun i => float_of_Z (Z.of_nat i) / div * delta + start)
              (seq 0 n)
        else
          map (fun i => float_of_Z (Z.of_nat i) * step + start) (seq 0 n)
      else
        map (fun i => float_of_Z (Z.of_nat i) * delta + start) (seq 0 n) in
    Some (if (1 <? num)%Z then removelast y ++ cons stop nil else y).

(** The test of line 115. *)
Definition low_freq (ky_crit d : float) : bool := ky_crit <? 2 * pi / d.

(** Lines 111-124.  [2*np.pi/d] raises [ZeroDivisionError] at [d = 0]. *)
Definition sampler (ky_crit d : float) : option (Z * list float) :=
  if d =? 0 then None
  else
    let ky_T := 2 * pi / d in
    if ky_crit <? 2 * pi / d then
      let N_ky := 41%Z in
      match linspace (- ky_T) ky_T N_ky with
      | Some Ky => Some (N_ky, Ky)
      | None => None
      end
    else
      let N_T := 2 * ky_crit / ky_T in
      match ceil_int (N_T * 20) with
      | None => None
      | Some c =>
          let N_ky := (c + 1)%Z in
          match linspace (- ky_crit) ky_crit N_ky with
          | Some Ky => Some (N_ky, Ky)
          | None => None
          end
      end.

(** [Ky[i]], with [IndexError] as [None]. *)
Definition getitem (a : list float) (i : nat) : option float :=
  nth_error a i.

(** Line 131 *)
Definition bin_width (Ky : list float) : option float :=
  match getitem Ky 1, getitem Ky 0 with
  | Some k1, Some k0 => Some (k1 - k0)
  | _, _ => None
  end.

(** *** The loop body (lines 153-162)

    [complex128] values are pairs of doubles with NumPy's product
    [(a*c - b*d, a*d + b*c)]; a real scalar is promoted to a complex one
    before it multiplies a complex array.  Sums run from index 0 upwards;
    the order a BLAS kernel uses is not specified, and the inputs this is
    run on below have two non-zero terms per sum, for which every order
    gives the same double. *)

Definition C64 : Type := (float * float)%type.

Definition cadd (z w : C64) : C64 := (fst z + fst w, snd z + snd w).
Definition cmul (z w : C64) : C64 :=
  (fst z * fst w - snd z * snd w, fst z * snd w + snd z * fst w).
Definition cconj (z : C64) : C64 := (fst z, - snd z).
Definition of_real (x : float) : C64 := (x, 0).


Fixpoint csum (n : nat) (f : nat -> C64) : C64 :=
  match n with
  | O => (0, 0)
  | S k => cadd (csum k f) (f k)
  end.

(** Line 153 *)
Definition Sqq (v : nat -> C64) (Ux dky : float) : nat -> nat -> C64 :=
  fun j k =>
    cmul (cmul (cmul (v j) (cconj (v k))) (of_real Ux)) (of_real dky).

Definition matmul (n : nat) (A B : nat -> nat -> C64) : nat -> nat -> C64 :=
  fun i j => csum n (fun k => cmul (A i k) (B k j)).

Definition H (A : nat -> nat -> C64) : nat -> nat -> C64 :=
  fun i j => cconj (A j i).

(** [np.real(np.diag(G @ Sqq @ H(G)))*4*np.pi] at observer [i], for [n]
    mesh points. *)
Definition gust_term (n : nat) (G : nat -> nat -> C64) (v : nat -> C64)
    (Ux dky : float) (i : nat) : float :=
  fst (matmul n (matmul n G (Sqq v Ux dky)) (H G) i i) * 4 * pi.

(** [acc += r] *)
Definition iadd_real (acc : nat -> C64) (r : nat -> float) : nat -> C64 :=
  fun i => cadd (acc i) (of_real (r i)).


(** *** Exact values of stored doubles *)

Definition CQ : Type := (QArith_base.Q * QArith_base.Q)%type.



Definition exact (z : C64) : CQ := (F2Q (fst z), F2Q (snd z)).


(** *** Inputs the loop body is run on *)


(** The grid and bin width of the script as written. *)
Definition Ky : list float :=
  match sampler ky_crit d with
  | Some (_, K) => K
  | None => nil
  end.
Definition dky : float := nth 1 Ky 0 - nth 0 Ky 0.

(** [repr(dky)] is [1.396263401595462]; [repr((Ky[40] - Ky[0])/40)] is
    [1.3962634015954636]. *)
Definition dky_printed : float := 0x1.657184ae7448p+0.





End Binary64.

(** ** Wavenumber sampler (lines 111-131)

    [sampler ky_crit d] is the pair [(N_ky, Ky)] the script builds from the
    critical wavenumber and the half span.  [2*np.pi/d] divides two Python
    floats, so [d = 0] raises [ZeroDivisionError]; [np.linspace] raises
    [ValueError] on a negative count.  Both are [None].  Exact reading:
    the quotient under [ceil] is not rounded and never overflows;
    [Binary64.sampler] is the binary64 reading, where the count can be one
    less and [int] raises on an infinite quotient. *)

(** [ky_T = 2*np.pi/d] (line 111) *)
Definition ky_T_of (d : R) : R := 2 * PI / d.

(** The test [ky_crit < 2*np.pi/d] of line 115. *)
Definition low_freq (ky_crit d : R) : bool :=
  if Rlt_dec ky_crit (2 * PI / d) then true else false.

Definition sampler (ky_crit d : R) : option (Z * list R) :=
  if Req_dec_T d 0 then None
  else
    let ky_T := ky_T_of d in
    if low_freq ky_crit d then
      let N_ky := 41%Z in
      match linspace (- ky_T) ky_T N_ky with
      | Some Ky => Some (N_ky, Ky)
      | None => None
      end
    else
      let N_T := 2 * ky_crit / ky_T in
      let N_ky := (Zceil (N_T * 20) + 1)%Z in
      match linspace (- ky_crit) ky_crit N_ky with
      | Some Ky => Some (N_ky, Ky)
      | None => None
      end.

(** [dky = Ky[1]-Ky[0]] (line 131); [IndexError] is [None]. *)
Definition bin_width (Ky : list R) : option R :=
  match getitem Ky 1, getitem Ky 0 with
  | Some k1, Some k0 => Some (k1 - k0)
  | _, _ => None
  end.

(** ** The gust loop (lines 86-162) *)

(** A real array of shape [(dim0, dim1, dim2)], as [create_airf_mesh]
    returns for the mesh coordinates. *)
Record ndarray3 : Type := {
  dim0 : nat;
  dim1 : nat;
  dim2 : nat;
  item3 : nat -> nat -> nat -> R
}.

(** [A[0:2]]: the first two planes of the leading axis. *)
Definition slice_0_2 (A : ndarray3) : ndarray3 :=
  {| dim0 := Nat.min 2 (dim0 A); dim1 := dim1 A; dim2 := dim2 A;
     item3 := item3 A |}.

(** [A.reshape(3, n)] in row-major order. *)
Definition reshape_3 (A : ndarray3) : nat -> nat -> R :=
  fun c p => item3 A c (p / dim2 A)%nat (p mod dim2 A)%nat.

(** [r * s] for a real array and a real scalar. *)
Definition rscale (r : nat -> R) (s : R) : nat -> R := fun i => r i * s.

(** [def H(A): return A.conj().T] (lines 31-33) *)
Definition H {m n : nat} (A : Matrix m n) : Matrix n m :=
  transpose (mconj A).

(** The variables the loop carries from one gust to the next. *)
Record loop_state (N M : nat) : Type := {
  Sqq : Matrix N N;
  Spp_Xdir : Vector M;
  Spp_Ydir : Vector M
}.
Arguments Sqq {N M} _ _ _.
Arguments Spp_Xdir {N M} _ _.
Arguments Spp_Ydir {N M} _ _.

Section Pipeline.

Import Script.

(** The functions of the [amiet_tools] package, as the script calls them. *)
Variable create_airf_mesh :
  R -> R -> nat -> nat -> ndarray3 * (nat -> R) * R.
Variable Phi_2D :
  R -> list R -> R -> R -> string -> nat -> nat -> R.
Variable delta_p :
  R -> R -> R -> R -> R -> R -> ndarray3 -> R -> nat -> nat -> C.
Variable dipole3D :
  (nat -> nat -> R) -> (nat -> nat -> R) -> R -> string -> string * R ->
  Matrix M_farfield (Nx * Ny).

(** Far-field arcs (lines 99-107); they do not depend on the sampler.
    Exact reading: [theta_farfield] starts at the real number [-pi/2],
    where [cos] is 0; the script evaluates [cos] at the double nearest to
    [-pi/2] and stores [z = -3.06e-15] at both ends of the arc. *)
Definition theta_farfield : list R :=
  linspace_nat (- PI / 2) (PI / 2) M_farfield.
Definition x_farfield (m : nat) : R :=
  R_farfield * sin (nth m theta_farfield 0).
Definition z_farfield (m : nat) : R :=
  - R_farfield * cos (nth m theta_farfield 0).

Definition XZ_farfield : nat -> nat -> R :=
  fun c m =>
    match c with
    | 0%nat => x_farfield m
    | 2%nat => z_farfield m
    | _ => 0
    end.
Definition YZ_farfield : nat -> nat -> R :=
  fun c m =>
    match c with
    | 1%nat => x_farfield m
    | 2%nat => z_farfield m
    | _ => 0
    end.

Section Gusts.

(** The half span, the sampled grid and its bin width. *)
Variable d : R.
Variable Ky : list R.
Variable dky : R.

(** Lines 93-94 *)
Definition XYZ_airfoil : ndarray3 :=
  fst (fst (create_airf_mesh b d Nx Ny)).
Definition dx : nat -> R := snd (fst (create_airf_mesh b d Nx Ny)).
Definition dy : R := snd (create_airf_mesh b d Nx Ny).
Definition XYZ_airfoil_calc : nat -> nat -> R := reshape_3 XYZ_airfoil.

(** Line 139 *)
Definition Phi2 : nat -> R := Phi_2D Kx Ky u_mean2 length_scale "K" 0%nat.

(** Lines 144-151: the weighted pressure jump of gust [kyi], flattened
    in row-major order; [dx] is broadcast along the last axis. *)
Definition delta_p1_calc (kyi : nat) : Vector (Nx * Ny) :=
  let w0 := sqrt (Phi2 kyi) in
  let delta_p1 :=
    delta_p rho0 b w0 Ux Kx (nth kyi Ky 0) (slice_0_2 XYZ_airfoil) Mach in
  fun p =>
    let r := (p / dim2 XYZ_airfoil)%nat in
    let c := (p mod dim2 XYZ_airfoil)%nat in
    Cmul (Cmul (delta_p1 r c) (RtoC (dx c))) (RtoC dy).

(** One pass through the loop body (lines 143-162).  Exact reading of
    the complex arithmetic; [Binary64.gust_term] is the binary64 reading
    of the same products and sums. *)
Definition gust_step (st : loop_state (Nx * Ny) M_farfield) (kyi : nat)
  : loop_state (Nx * Ny) M_farfield :=
  let v := delta_p1_calc kyi in
  let Sqq' := mscale (mscale (outer v (conj v)) Ux) dky in
  let G_Xdir :=
    dipole3D XYZ_airfoil_calc XZ_farfield k0 dipole_axis flow_param in
  let Spp_Xdir' :=
    iadd_real (Spp_Xdir st)
      (rscale (rscale (real (diag (matmul (matmul G_Xdir Sqq')
                                     (H G_Xdir)))) 4) PI) in
  let G_Ydir :=
    dipole3D XYZ_airfoil_calc YZ_farfield k0 dipole_axis flow_param in
  let Spp_Ydir' :=
    iadd_real (Spp_Ydir st)
      (rscale (rscale (real (diag (matmul (matmul G_Ydir Sqq')
                                     (H G_Ydir)))) 4) PI) in
  {| Sqq := Sqq'; Spp_Xdir := Spp_Xdir'; Spp_Ydir := Spp_Ydir' |}.

(** Lines 134-137 *)
Definition init_state : loop_state (Nx * Ny) M_farfield :=
  {| Sqq := zeros2 (Nx * Ny) (Nx * Ny);
     Spp_Xdir := zeros M_farfield;
     Spp_Ydir := zeros M_farfield |}.

(** The state after the gusts [0 .. n-1]; the script runs
    [n = Ky.shape[0]] of them. *)
Definition gust_loop (n : nat) : loop_state (Nx * Ny) M_farfield :=
  fold_left gust_step (seq 0 n) init_state.

(** The same loop with the two Green's function matrices passed in,
    as a driver that computes them once before the loop would run
    it. *)
Definition gust_step_cached
    (G_Xdir G_Ydir : Matrix M_farfield (Nx * Ny))
    (st : loop_state (Nx * Ny) M_farfield) (kyi : nat)
  : loop_state (Nx * Ny) M_farfield :=
  let v := delta_p1_calc kyi in
  let Sqq' := mscale (mscale (outer v (conj v)) Ux) dky in
  {| Sqq := Sqq';
     Spp_Xdir :=
       iadd_real (Spp_Xdir st)
         (rscale (rscale (real (diag (matmul (matmul G_Xdir Sqq')
                                        (H G_Xdir)))) 4) PI);
     Spp_Ydir :=
       iadd_real (Spp_Ydir st)
         (rscale (rscale (real (diag (matmul (matmul G_Ydir Sqq')
                                        (H G_Ydir)))) 4) PI) |}.

Definition gust_loop_cached (n : nat)
  : loop_state (Nx * Ny) M_farfield :=
  let G_Xdir :=
    dipole3D XYZ_airfoil_calc XZ_farfield k0 dipole_axis flow_param in
  let G_Ydir :=
    dipole3D XYZ_airfoil_calc YZ_farfield k0 dipole_axis flow_param in
  fold_left (gust_step_cached G_Xdir G_Ydir) (seq 0 n) init_state.

End Gusts.

(** Lines 111-162 as a function of the critical wavenumber and the half
    span: sample the grid, take the bin width from it, run one gust per
    grid point. *)
Definition pipeline (ky_crit d : R)
  : option (loop_state (Nx * Ny) M_farfield) :=
  match sampler ky_crit d with
  | None => None
  | Some (N_ky, Ky) =>
      match bin_width Ky with
      | None => None
      | Some dky => Some (gust_loop d Ky dky (List.length Ky))
      end
  end.

Definition pipeline_cached (ky_crit d : R)
  : option (loop_state (Nx * Ny) M_farfield) :=
  match sampler ky_crit d with
  | None => None
  | Some (N_ky, Ky) =>
      match bin_width Ky with
      | None => None
      | Some dky => Some (gust_loop_cached d Ky dky (List.length Ky))
      end
  end.

End Pipeline.

(** ** Normalisation for the dB plots (lines 167-173) *)

Definition normalise {M : nat} (Spp_Xdir Spp_Ydir : Vector M)
  : Vector M * Vector M :=
  let Spp_max := Cmax (vmax M Spp_Xdir) (vmax M Spp_Ydir) in
  let Spp_max := RtoC Script.Spp_ref in
  (fun i => Cdiv (Spp_Xdir i) Spp_max, fun i => Cdiv (Spp_Ydir i) Spp_max).

(** ** Notions the properties are stated with *)

(** The pressure a gust with surface pressure [v] radiates to observer
    [i] through the Green's function matrix [G]. *)
Definition radiated (M N : nat) (G : Matrix M N) (v : Vector N) (i : nat)
  : C :=
  Csum N (fun j => Cmul (G i j) (v j)).

(** The covariance matrix of line 153 for a pressure vector [v], a flow
    speed [U] and a bin width [D]. *)
Definition covariance (N : nat) (v : Vector N) (U D : R) : Matrix N N :=
  mscale (mscale (outer v (conj v)) U) D.



(** [Ky] is the grid of [n >= 2] evenly spaced points from [lo] to [hi]. *)
Definition uniform_grid (lo hi : R) (n : nat) (Ky : list R) : Prop :=
  List.length Ky = n /\ (2 <= n)%nat /\
  forall i, (i < n)%nat ->
    nth i Ky 0 = lo + INR i * ((hi - lo) / INR (n - 1)).

(** Constant stand-ins for the package functions, to instantiate the
    results at concrete inputs. *)
Definition flat_mesh (b d : R) (Nx Ny : nat) : ndarray3 * (nat -> R) * R :=
  ({| dim0 := 3; dim1 := Ny; dim2 := Nx; item3 := fun _ _ _ => 0 |},
   fun _ => 1, 1).
Definition unit_spectrum (Kx : R) (Ky : list R) (u_mean2 length_scale : R)
    (model : string) : nat -> nat -> R :=
  fun _ _ => 1.
Definition unit_jump (rho0 b w0 Ux Kx ky : R) (xy : ndarray3) (Mach : R)
  : nat -> nat -> C :=
  fun _ _ => RtoC 1.
Definition unit_green (xs xo : nat -> nat -> R) (k0 : R) (axis : string)
    (flow : string * R) : Matrix Script.M_farfield (Script.Nx * Script.Ny) :=
  fun _ _ => RtoC 1.

(** ** Rendering in dB (lines 177 and 201)

    [10*np.log10(np.abs(z))].  [np.log10] gives [-inf] at zero (and [nan]
    below); neither is a real number, so both are [None]. *)

Definition Cabs (z : C) : R := sqrt (Cnorm2 z).

Definition log10 (x : R) : option R :=
  if Rlt_dec 0 x then Some (ln x / ln 10) else None.

Definition level_dB (z : C) : option R :=
  match log10 (Cabs z) with
  | Some l => Some (10 * l)
  | None => None
  end.

(** ** The scalar prelude as a function of its literals (lines 42-76)

    The same expressions as in [Script], with the four literals they
    depend on as arguments.  Exact reading; the binary64 values of the
    script's own literals are in [Binary64]. *)

Module Prelude.

Definition f0 (kc c0 b : R) : R := kc * c0 / (2 * PI * (2 * b)).
Definition ac_wavelength (kc c0 b : R) : R := c0 / f0 kc c0 b.
Definition k0 (kc c0 b : R) : R := 2 * PI / ac_wavelength kc c0 b.
Definition Mach (Ux c0 : R) : R := Ux / c0.
Definition beta (Ux c0 : R) : R := sqrt (1 - Mach Ux c0 ^ 2).
Definition Kx (kc c0 b Ux : R) : R := 2 * PI * f0 kc c0 b / Ux.
Definition ky_crit (kc c0 b Ux : R) : R :=
  Kx kc c0 b Ux * Mach Ux c0 / beta Ux c0.
Definition mu_h (kc c0 b Ux : R) : R :=
  Kx kc c0 b Ux * b / (beta Ux c0 ^ 2).
Definition mu_a (kc c0 b Ux : R) : R := mu_h kc c0 b Ux * Mach Ux c0.

End Prelude.

(** * Properties *)

(** ** Algebra of complex scalars and finite sums *)

Ltac c_alg :=
  intros;
  repeat match goal with z : C |- _ => destruct z end;
  unfold Csub, Cadd, Cmul, Copp, Cconj, RtoC, Cnorm2, Re, Im; simpl;
  try (f_equal; ring).

Lemma C_ring_theory :
  ring_theory (RtoC 0) (RtoC 1) Cadd Cmul Csub Copp (@eq C).
Proof. constructor; c_alg. Qed.

Add Ring C_ring : C_ring_theory.

Lemma Cconj_add z w : Cconj (Cadd z w) = Cadd (Cconj z) (Cconj w).
Proof. c_alg. Qed.

Lemma Cconj_mul z w : Cconj (Cmul z w) = Cmul (Cconj z) (Cconj w).
Proof. c_alg. Qed.

Lemma Cconj_invol z : Cconj (Cconj z) = z.
Proof. c_alg. Qed.

Lemma Cconj_RtoC x : Cconj (RtoC x) = RtoC x.
Proof. c_alg. Qed.

Lemma Cmul_conj z : Cmul z (Cconj z) = RtoC (Cnorm2 z).
Proof. c_alg. Qed.

Lemma RtoC_mul x y : RtoC (x * y) = Cmul (RtoC x) (RtoC y).
Proof. c_alg. Qed.

Lemma Cnorm2_nonneg z : 0 <= Cnorm2 z.
Proof. destruct z as [x y]; unfold Cnorm2; simpl; nra. Qed.

Lemma Csum_ext n f g :
  (forall k, (k < n)%nat -> f k = g k) -> Csum n f = Csum n g.
Proof.
  induction n as [|n IH]; intros E; simpl; [reflexivity|].
  rewrite IH by (intros; apply E; lia).
  rewrite E by lia. reflexivity.
Qed.

Lemma Csum_mul_l n c f :
  Csum n (fun k => Cmul c (f k)) = Cmul c (Csum n f).
Proof.
  induction n as [|n IH]; simpl; [ring | rewrite IH; ring].
Qed.

Lemma Csum_mul_r n c f :
  Csum n (fun k => Cmul (f k) c) = Cmul (Csum n f) c.
Proof.
  induction n as [|n IH]; simpl; [ring | rewrite IH; ring].
Qed.

Lemma Csum_conj n f :
  Cconj (Csum n f) = Csum n (fun k => Cconj (f k)).
Proof.
  induction n as [|n IH]; simpl.
  - apply Cconj_RtoC.
  - rewrite Cconj_add, IH; reflexivity.
Qed.


Lemma Im_Cadd_RtoC z r : Im (Cadd z (RtoC r)) = Im z.
Proof. unfold Cadd, RtoC, Im; simpl; ring. Qed.

(** ** Real-number facts *)

(** Bounds on [pi] from the series of [2*atan(1/3) + atan(1/7)]. *)
Lemma PI_bounds : 3.1415 < PI < 3.1416.
Proof.
  pose proof (PI_2_3_7_ineq 2) as [Hl Hu].
  unfold sum_f_R0, tg_alt, PI_2_3_7_tg, Ratan_seq in Hl, Hu.
  simpl in Hl, Hu.
  split; lra.
Qed.

Lemma Rdiv_gt_lower a b c : 0 < b -> c * b < a -> c < a / b.
Proof.
  intros Hb Hlt. apply (Rmult_lt_reg_r b); [exact Hb|].
  unfold Rdiv. rewrite Rmult_assoc, Rinv_l by lra. lra.
Qed.

Lemma Rdiv_lt_upper a b c : 0 < b -> a < c * b -> a / b < c.
Proof.
  intros Hb Hlt. apply (Rmult_lt_reg_r b); [exact Hb|].
  unfold Rdiv. rewrite Rmult_assoc, Rinv_l by lra. lra.
Qed.

(** ** One gust through one Green's function matrix *)

Section Propagation.

Variables (M N : nat).
Variable G : Matrix M N.
Variable v : Vector N.
Variables (U D : R).

Lemma covariance_entry j k :
  covariance N v U D j k =
  Cmul (Cmul (Cmul (v j) (Cconj (v k))) (RtoC U)) (RtoC D).
Proof. reflexivity. Qed.

Lemma propagate_row i k :
  matmul G (covariance N v U D) i k =
  Cmul (radiated M N G v i) (Cmul (Cmul (Cconj (v k)) (RtoC U)) (RtoC D)).
Proof.
  unfold matmul, radiated.
  rewrite <- Csum_mul_r.
  apply Csum_ext; intros j _.
  rewrite covariance_entry; ring.
Qed.

(** [diag(G @ Sqq @ H(G))] at observer [i] is [U * D * |G v|_i^2]. *)
Lemma propagate_diag i :
  diag (matmul (matmul G (covariance N v U D)) (H G)) i =
  RtoC (U * D * Cnorm2 (radiated M N G v i)).
Proof.
  unfold diag.
  change (matmul (matmul G (covariance N v U D)) (H G) i i)
    with (Csum N (fun k => Cmul (matmul G (covariance N v U D) i k)
                                (Cconj (G i k)))).
  rewrite (Csum_ext N _
    (fun k => Cmul (Cmul (radiated M N G v i) (Cmul (RtoC U) (RtoC D)))
                   (Cconj (Cmul (G i k) (v k))))).
  - rewrite Csum_mul_l, <- Csum_conj.
    fold (radiated M N G v i).
    replace (Cmul (Cmul (radiated M N G v i) (Cmul (RtoC U) (RtoC D)))
                  (Cconj (radiated M N G v i)))
      with (Cmul (Cmul (radiated M N G v i) (Cconj (radiated M N G v i)))
                 (Cmul (RtoC U) (RtoC D))) by ring.
    rewrite Cmul_conj, <- !RtoC_mul. f_equal; ring.
  - intros k _. rewrite propagate_row, Cconj_mul; ring.
Qed.

(** The amount one gust adds to the accumulator entry [i]. *)
Lemma gust_term i :
  rscale (rscale (real (diag (matmul (matmul G (covariance N v U D)) (H G)))) 4)
         PI i
  = U * D * 4 * PI * Cnorm2 (radiated M N G v i).
Proof.
  unfold rscale, real. rewrite propagate_diag.
  unfold RtoC, Re; simpl; ring.
Qed.

Lemma gust_term_nonneg i :
  0 <= U -> 0 <= D ->
  0 <= rscale (rscale (real (diag (matmul (matmul G (covariance N v U D)) (H G))))
                      4) PI i.
Proof.
  intros HU HD. rewrite gust_term.
  pose proof (Cnorm2_nonneg (radiated M N G v i)) as Hn.
  pose proof PI_RGT_0 as Hpi.
  apply Rmult_le_pos; [|exact Hn].
  apply Rmult_le_pos; [|lra].
  apply Rmult_le_pos; [|lra].
  apply Rmult_le_pos; assumption.
Qed.

End Propagation.



(** ** The accumulators along the loop *)

Section LoopProperties.

Import Script.

Variable create_airf_mesh :
  R -> R -> nat -> nat -> ndarray3 * (nat -> R) * R.
Variable Phi_2D :
  R -> list R -> R -> R -> string -> nat -> nat -> R.
Variable delta_p :
  R -> R -> R -> R -> R -> R -> ndarray3 -> R -> nat -> nat -> C.
Variable dipole3D :
  (nat -> nat -> R) -> (nat -> nat -> R) -> R -> string -> string * R ->
  Matrix M_farfield (Nx * Ny).

Variable d : R.
Variable Ky : list R.
Variable dky : R.

Let step := gust_step create_airf_mesh Phi_2D delta_p dipole3D d Ky dky.
Let loop := gust_loop create_airf_mesh Phi_2D delta_p dipole3D d Ky dky.
Let v := delta_p1_calc create_airf_mesh Phi_2D delta_p d Ky.
Let G_X : Matrix M_farfield (Nx * Ny) :=
  dipole3D (XYZ_airfoil_calc create_airf_mesh d)
           XZ_farfield k0 dipole_axis flow_param.
Let G_Y : Matrix M_farfield (Nx * Ny) :=
  dipole3D (XYZ_airfoil_calc create_airf_mesh d)
           YZ_farfield k0 dipole_axis flow_param.

Lemma gust_loop_S n : loop (S n) = step (loop n) n.
Proof.
  unfold loop, gust_loop.
  rewrite seq_S, fold_left_app; reflexivity.
Qed.


Lemma step_Spp_Xdir st kyi i :
  Spp_Xdir (step st kyi) i =
  Cadd (Spp_Xdir st i)
       (RtoC (Ux * dky * 4 * PI *
              Cnorm2 (radiated M_farfield (Nx * Ny) G_X (v kyi) i))).
Proof.
  rewrite <- (gust_term M_farfield (Nx * Ny) G_X (v kyi) Ux dky i).
  reflexivity.
Qed.

Lemma step_Spp_Ydir st kyi i :
  Spp_Ydir (step st kyi) i =
  Cadd (Spp_Ydir st i)
       (RtoC (Ux * dky * 4 * PI *
              Cnorm2 (radiated M_farfield (Nx * Ny) G_Y (v kyi) i))).
Proof.
  rewrite <- (gust_term M_farfield (Nx * Ny) G_Y (v kyi) Ux dky i).
  reflexivity.
Qed.


Lemma loop_imag n i :
  Im (Spp_Xdir (loop n) i) = 0 /\ Im (Spp_Ydir (loop n) i) = 0.
Proof.
  induction n as [|n [IHx IHy]].
  - split; reflexivity.
  - rewrite gust_loop_S, step_Spp_Xdir, step_Spp_Ydir.
    rewrite !Im_Cadd_RtoC; split; assumption.
Qed.



Lemma loop_cached_eq n :
  gust_loop_cached create_airf_mesh Phi_2D delta_p dipole3D d Ky dky n
  = loop n.
Proof.
  unfold loop, gust_loop_cached, gust_loop.
  generalize (init_state) as st.
  induction (seq 0 n) as [|kyi l IH]; intros st; simpl.
  - reflexivity.
  - rewrite IH; reflexivity.
Qed.

End LoopProperties.

(** ** Uniform grids *)

Lemma linspace_nat_length a b n : List.length (linspace_nat a b n) = n.
Proof. unfold linspace_nat. rewrite length_map, length_seq; reflexivity. Qed.

Lemma linspace_nat_getitem a b n i :
  (i < n)%nat ->
  getitem (linspace_nat a b n) i =
  Some (a + INR i * ((b - a) / INR (n - 1))).
Proof.
  intros Hi. unfold getitem, linspace_nat.
  rewrite nth_error_map.
  rewrite (nth_error_nth' (seq 0 n) 0%nat) by (rewrite length_seq; exact Hi).
  rewrite seq_nth by exact Hi. reflexivity.
Qed.

Lemma linspace_nat_nth a b n i :
  (i < n)%nat ->
  nth i (linspace_nat a b n) 0 = a + INR i * ((b - a) / INR (n - 1)).
Proof.
  intros Hi. apply nth_error_nth, linspace_nat_getitem, Hi.
Qed.

Lemma linspace_nat_uniform a b n :
  (2 <= n)%nat -> uniform_grid a b n (linspace_nat a b n).
Proof.
  intros Hn. repeat split.
  - apply linspace_nat_length.
  - exact Hn.
  - intros i Hi. apply linspace_nat_nth; exact Hi.
Qed.

Lemma INR_pred_pos n : (2 <= n)%nat -> 0 < INR (n - 1).
Proof. intros Hn. apply lt_0_INR; lia. Qed.

Lemma uniform_grid_first lo hi n Ky :
  uniform_grid lo hi n Ky -> nth 0 Ky 0 = lo.
Proof.
  intros (_ & Hn & Hnth). rewrite Hnth by lia. simpl; ring.
Qed.

Lemma uniform_grid_last lo hi n Ky :
  uniform_grid lo hi n Ky -> nth (n - 1) Ky 0 = hi.
Proof.
  intros (_ & Hn & Hnth). rewrite Hnth by lia.
  pose proof (INR_pred_pos n Hn). field; lra.
Qed.

Lemma uniform_grid_step lo hi n Ky i :
  uniform_grid lo hi n Ky -> (S i < n)%nat ->
  nth (S i) Ky 0 - nth i Ky 0 = (hi - lo) / INR (n - 1).
Proof.
  intros (_ & Hn & Hnth) Hi.
  rewrite !Hnth by lia. rewrite S_INR. ring.
Qed.

Lemma uniform_grid_bin_width lo hi n Ky :
  uniform_grid lo hi n Ky ->
  bin_width Ky = Some ((hi - lo) / INR (n - 1)).
Proof.
  intros HU. pose proof HU as (Hlen & Hn & Hnth).
  unfold bin_width, getitem.
  rewrite (nth_error_nth' Ky 0) by lia.
  rewrite (nth_error_nth' Ky 0) by lia.
  f_equal. apply (uniform_grid_step lo hi n Ky 0%nat HU). lia.
Qed.

(** ** The two regimes of the sampler *)

Lemma ky_T_pos d : 0 < d -> 0 < 2 * PI / d.
Proof.
  intros Hd. pose proof PI_RGT_0.
  apply Rdiv_lt_0_compat; lra.
Qed.

Lemma sampler_low ky_crit d :
  d <> 0 -> ky_crit < 2 * PI / d ->
  sampler ky_crit d =
  Some (41%Z, linspace_nat (- (2 * PI / d)) (2 * PI / d) 41).
Proof.
  intros Hd Hlt. unfold sampler, low_freq, ky_T_of.
  destruct (Req_dec_T d 0) as [E|_]; [contradiction|].
  destruct (Rlt_dec ky_crit (2 * PI / d)) as [_|Hn]; [|contradiction].
  reflexivity.
Qed.

Lemma sampler_high ky_crit d :
  d <> 0 -> 2 * PI / d <= ky_crit ->
  (0 <= Zceil (2 * ky_crit / (2 * PI / d) * 20) + 1)%Z ->
  sampler ky_crit d =
  Some ((Zceil (2 * ky_crit / (2 * PI / d) * 20) + 1)%Z,
        linspace_nat (- ky_crit) ky_crit
          (Z.to_nat (Zceil (2 * ky_crit / (2 * PI / d) * 20) + 1))).
Proof.
  intros Hd Hge Hnum. unfold sampler, low_freq, ky_T_of.
  destruct (Req_dec_T d 0) as [E|_]; [contradiction|].
  destruct (Rlt_dec ky_crit (2 * PI / d)) as [Hlt|_]; [lra|].
  unfold linspace.
  destruct (Z.ltb_spec (Zceil (2 * ky_crit / (2 * PI / d) * 20) + 1) 0);
    [lia | reflexivity].
Qed.

(** In the high-frequency regime the count is at least 41. *)
Lemma high_count ky_crit d :
  0 < d -> 2 * PI / d <= ky_crit ->
  (40 <= Zceil (2 * ky_crit / (2 * PI / d) * 20))%Z.
Proof.
  intros Hd Hge. pose proof (ky_T_pos d Hd) as HT.
  apply le_IZR.
  pose proof (Zceil_bound (2 * ky_crit / (2 * PI / d) * 20)) as [_ Hc].
  eapply Rle_trans; [|exact Hc].
  assert (1 <= ky_crit / (2 * PI / d)).
  { apply (Rmult_le_reg_r (2 * PI / d)); [exact HT|].
    unfold Rdiv at 2. rewrite Rmult_assoc, Rinv_l by lra. lra. }
  unfold Rdiv in *. nra.
Qed.



(** ** Main results *)

Section Claims.

Import Script.

Variable create_airf_mesh :
  R -> R -> nat -> nat -> ndarray3 * (nat -> R) * R.
Variable Phi_2D :
  R -> list R -> R -> R -> string -> nat -> nat -> R.
Variable delta_p :
  R -> R -> R -> R -> R -> R -> ndarray3 -> R -> nat -> nat -> C.
Variable dipole3D :
  (nat -> nat -> R) -> (nat -> nat -> R) -> R -> string -> string * R ->
  Matrix M_farfield (Nx * Ny).

#[local] Abbreviation loop := (gust_loop create_airf_mesh Phi_2D delta_p dipole3D).
#[local] Abbreviation step := (gust_step create_airf_mesh Phi_2D delta_p dipole3D).
#[local] Abbreviation pressure := (delta_p1_calc create_airf_mesh Phi_2D delta_p).
#[local] Abbreviation G_Xdir d :=
  (dipole3D (XYZ_airfoil_calc create_airf_mesh d)
            XZ_farfield k0 dipole_axis flow_param).
#[local] Abbreviation G_Ydir d :=
  (dipole3D (XYZ_airfoil_calc create_airf_mesh d)
            YZ_farfield k0 dipole_axis flow_param).



(** C5. There is one accumulator per observer arc; both start as all
    zeros, and every value either of them holds after any number of
    gusts has zero imaginary part. *)
Theorem accumulators_real (d : R) (Ky : list R) (dky : R) (n i : nat) :
  (Spp_Xdir (init_state) i = RtoC 0 /\
   Spp_Ydir (init_state) i = RtoC 0) /\
  Im (Spp_Xdir (loop d Ky dky n) i) = 0 /\
  Im (Spp_Ydir (loop d Ky dky n) i) = 0.
Proof.
  split; [split; reflexivity|]. apply loop_imag.
Qed.

(** C6. Passing the two Green's function matrices in, computed once
    before the loop, gives the same state after every number of gusts,
    and so the same final spectra, as calling [dipole3D] in every
    iteration. *)
Theorem green_cache_equiv :
  (forall d Ky dky n,
     gust_loop_cached create_airf_mesh Phi_2D delta_p dipole3D d Ky dky n
     = loop d Ky dky n) /\
  (forall ky_crit d,
     pipeline_cached create_airf_mesh Phi_2D delta_p dipole3D ky_crit d
     = pipeline create_airf_mesh Phi_2D delta_p dipole3D ky_crit d).
Proof.
  split.
  - intros. apply loop_cached_eq.
  - intros ky_crit d. unfold pipeline_cached, pipeline.
    destruct (sampler ky_crit d) as [[N_ky Ky]|]; [|reflexivity].
    destruct (bin_width Ky) as [dky|]; [|reflexivity].
    rewrite loop_cached_eq; reflexivity.
Qed.

End Claims.



(** *** The loop results at a concrete run: two gusts, unit bin width *)



(** Every grid the sampler returns for a positive half span. *)
Lemma sampler_cases ky_crit d :
  0 < d ->
  exists N_ky Ky lo hi,
    sampler ky_crit d = Some (N_ky, Ky) /\
    (41 <= N_ky)%Z /\
    uniform_grid lo hi (Z.to_nat N_ky) Ky /\
    lo < hi /\
    ((ky_crit < ky_T_of d /\ N_ky = 41%Z /\
      lo = - ky_T_of d /\ hi = ky_T_of d) \/
     (ky_T_of d <= ky_crit /\
      N_ky = (Zceil (2 * ky_crit / ky_T_of d * 20) + 1)%Z /\
      lo = - ky_crit /\ hi = ky_crit)).
Proof.
  intros Hd. unfold ky_T_of. pose proof (ky_T_pos d Hd) as HT.
  destruct (Rlt_le_dec ky_crit (2 * PI / d)) as [Hlt|Hge].
  - exists 41%Z, (linspace_nat (- (2 * PI / d)) (2 * PI / d) 41),
      (- (2 * PI / d)), (2 * PI / d).
    split; [apply sampler_low; lra|].
    split; [lia|].
    split; [apply linspace_nat_uniform; change (Z.to_nat 41) with 41%nat; lia|].
    split; [lra|].
    left. split; [exact Hlt|]. split; [reflexivity|]. split; reflexivity.
  - pose proof (high_count ky_crit d Hd Hge) as Hc.
    exists (Zceil (2 * ky_crit / (2 * PI / d) * 20) + 1)%Z,
      (linspace_nat (- ky_crit) ky_crit
         (Z.to_nat (Zceil (2 * ky_crit / (2 * PI / d) * 20) + 1))),
      (- ky_crit), ky_crit.
    split; [apply sampler_high; [lra | exact Hge | lia]|].
    split; [lia|].
    split; [apply linspace_nat_uniform; lia|].
    split; [lra|].
    right. split; [exact Hge|]. split; [reflexivity|]. split; reflexivity.
Qed.



(** C4. When the critical wavenumber equals [ky_T = 2*pi/d] the test of
    line 115 fails, so the high-frequency branch runs with [N_T = 2] and
    [N_ky = ceil(2*20) + 1 = 41]; the grid is the one the low-frequency
    branch would build, from exactly [-ky_T] to exactly [+ky_T]. *)
Theorem sampler_boundary (d : R) :
  d <> 0 ->
  low_freq (ky_T_of d) d = false /\
  2 * ky_T_of d / ky_T_of d = 2 /\
  (Zceil (2 * ky_T_of d / ky_T_of d * 20) + 1 = 41)%Z /\
  exists Ky,
    sampler (ky_T_of d) d = Some (41%Z, Ky) /\
    linspace (- ky_T_of d) (ky_T_of d) 41 = Some Ky /\
    List.length Ky = 41%nat /\
    nth 0 Ky 0 = - ky_T_of d /\
    nth 40 Ky 0 = ky_T_of d.
Proof.
  intros Hd. unfold ky_T_of. pose proof PI_RGT_0 as Hpi.
  assert (HT : 2 * PI / d <> 0).
  { unfold Rdiv.
    apply Rmult_integral_contrapositive_currified;
      [lra | apply Rinv_neq_0_compat; exact Hd]. }
  assert (HN : 2 * (2 * PI / d) / (2 * PI / d) = 2) by (field; split; [exact Hd | lra]).
  assert (HC : (Zceil (2 * (2 * PI / d) / (2 * PI / d) * 20) + 1 = 41)%Z).
  { rewrite HN. replace (2 * 20) with (IZR 40) by (simpl; lra).
    rewrite (Zceil_eq 40) by lra. reflexivity. }
  split; [|split; [exact HN|split; [exact HC|]]].
  - unfold low_freq.
    destruct (Rlt_dec (2 * PI / d) (2 * PI / d)) as [Hlt|_];
      [lra | reflexivity].
  - pose proof (linspace_nat_uniform (- (2 * PI / d)) (2 * PI / d) 41
                  ltac:(lia)) as HU.
    exists (linspace_nat (- (2 * PI / d)) (2 * PI / d) 41).
    split.
    + rewrite sampler_high; [|exact Hd|lra|rewrite HC; lia].
      rewrite HC. reflexivity.
    + split; [reflexivity|].
      split; [apply linspace_nat_length|].
      split; [apply (uniform_grid_first _ _ _ _ HU)
             |apply (uniform_grid_last _ _ _ _ HU)].
Qed.



Section BinWidth.

Import Script.

Variable create_airf_mesh :
  R -> R -> nat -> nat -> ndarray3 * (nat -> R) * R.
Variable Phi_2D :
  R -> list R -> R -> R -> string -> nat -> nat -> R.
Variable delta_p :
  R -> R -> R -> R -> R -> R -> ndarray3 -> R -> nat -> nat -> C.
Variable dipole3D :
  (nat -> nat -> R) -> (nat -> nat -> R) -> R -> string -> string * R ->
  Matrix M_farfield (Nx * Ny).


End BinWidth.


(** C8. Both normalised arrays are the accumulated spectra divided, entry
    by entry, by the literal [4.296e-8]; the maximum of the two spectra
    does not enter the result. *)
Theorem normalise_by_literal (M : nat) (Spp_Xdir Spp_Ydir : Vector M)
    (i : nat) :
  (fst (normalise Spp_Xdir Spp_Ydir) i = Cdiv (Spp_Xdir i) (RtoC 4.296e-8) /\
   snd (normalise Spp_Xdir Spp_Ydir) i = Cdiv (Spp_Ydir i) (RtoC 4.296e-8)) /\
  (fst (normalise Spp_Xdir Spp_Ydir) i =
     (Re (Spp_Xdir i) / 4.296e-8, Im (Spp_Xdir i) / 4.296e-8) /\
   snd (normalise Spp_Xdir Spp_Ydir) i =
     (Re (Spp_Ydir i) / 4.296e-8, Im (Spp_Ydir i) / 4.296e-8)).
Proof.
  split; [split; reflexivity|].
  unfold normalise, Script.Spp_ref; cbv zeta; simpl fst; simpl snd.
  split; unfold Cdiv, RtoC, Re, Im; simpl; f_equal; field; lra.
Qed.

(** In double precision the script's [f0] is 180.37560217081472. *)
Lemma f0_binary64 :
  Binary64.f0 = Binary64.f0_printed.
Proof. reflexivity. Qed.

(** C9 as stated fails: the operating frequency is not 180.6 Hz to one
    decimal. *)
Lemma f0_not_180_6 : ~ (180.55 <= Script.f0 < 180.65).
Proof.
  unfold Script.f0, Script.kc, Script.c0, Script.b.
  pose proof PI_bounds as [Hl Hu].
  intros [Hlo _].
  assert (Hup : 0.5 * 340 / (2 * PI * (2 * 0.075)) < 180.55)
    by (apply Rdiv_lt_upper; lra).
  lra.
Qed.

(** C9, amended. With [b = 0.075], [c0 = 340] and [kc = 0.5] the
    operating frequency [f0 = kc*c0/(2*pi*(2*b))] lies between 180.35 and
    180.45 Hz, that is 180.4 Hz to one decimal. *)
Theorem f0_value : 180.35 < Script.f0 < 180.45.
Proof.
  unfold Script.f0, Script.kc, Script.c0, Script.b.
  pose proof PI_bounds as [Hl Hu].
  split.
  - apply Rdiv_gt_lower; lra.
  - apply Rdiv_lt_upper; lra.
Qed.

(** ** The script's own scenario *)

Lemma scenario_d_pos : 0 < Script.d.
Proof. unfold Script.d; lra. Qed.

Lemma scenario_beta_bound : 0.9 <= Script.beta.
Proof.
  unfold Script.beta, Script.Mach, Script.Ux, Script.c0.
  replace 0.9 with (sqrt (0.9 * 0.9)) by (apply sqrt_square; lra).
  apply sqrt_le_1_alt. lra.
Qed.

Lemma scenario_Kx_Mach : Script.Kx * Script.Mach = 10 / 3.
Proof.
  unfold Script.Kx, Script.Mach, Script.f0, Script.kc, Script.c0,
    Script.Ux, Script.b.
  pose proof PI_RGT_0.
  replace 0.5 with (1 / 2) by lra. replace 0.075 with (3 / 40) by lra.
  field. lra.
Qed.

Lemma scenario_ky_crit_bounds : 0 <= Script.ky_crit < 4.
Proof.
  unfold Script.ky_crit. rewrite scenario_Kx_Mach.
  pose proof scenario_beta_bound as Hb.
  split.
  - apply Rlt_le, Rdiv_lt_0_compat; lra.
  - apply Rdiv_lt_upper; lra.
Qed.

(** The script runs in the low-frequency regime, with 41 gusts. *)
Lemma scenario_low_freq : low_freq Script.ky_crit Script.d = true.
Proof.
  unfold low_freq.
  destruct (Rlt_dec Script.ky_crit (2 * PI / Script.d)) as [_|Hn];
    [reflexivity|].
  exfalso; apply Hn.
  pose proof scenario_ky_crit_bounds as [_ Hk].
  pose proof PI_bounds as [Hl _].
  apply Rlt_trans with (1 := Hk).
  unfold Script.d. apply Rdiv_gt_lower; lra.
Qed.

(** ** The sampler results at concrete inputs *)



Lemma sampler_boundary_witness :
  Script.d <> 0 /\
  low_freq (ky_T_of Script.d) Script.d = false /\
  exists Ky,
    sampler (ky_T_of Script.d) Script.d = Some (41%Z, Ky) /\
    linspace (- ky_T_of Script.d) (ky_T_of Script.d) 41 = Some Ky.
Proof.
  assert (Hd : Script.d <> 0) by (unfold Script.d; lra).
  split; [exact Hd|].
  destruct (sampler_boundary Script.d Hd)
    as (Hlow & _ & _ & Ky & Hs & Hl & _).
  split; [exact Hlow|]. exists Ky. split; [exact Hs | exact Hl].
Defined.



(** * Further properties of the script *)

(** ** The Hermitian transpose [H] (lines 31-33) *)

(** X1. [H] is an involution and reverses products:
    [H(H(A)) = A] and [H(A @ B) = H(B) @ H(A)], entry by entry. *)
Theorem H_involutive_antimultiplicative (m n o : nat)
    (A : Matrix m n) (B : Matrix n o) (i j : nat) :
  H (H A) i j = A i j /\
  H (matmul A B) i j = matmul (H B) (H A) i j.
Proof.
  split.
  - unfold H, transpose, mconj. apply Cconj_invol.
  - unfold H, transpose, mconj, matmul.
    rewrite Csum_conj. apply Csum_ext; intros k _.
    rewrite Cconj_mul; ring.
Qed.

(** ** Flattening of the mesh arrays (lines 94 and 151) *)

Lemma flat_index r c n :
  (c < n)%nat -> ((r * n + c) / n = r /\ (r * n + c) mod n = c)%nat.
Proof.
  intros Hc. split.
  - rewrite Nat.div_add_l by lia. rewrite Nat.div_small by exact Hc. lia.
  - rewrite Nat.add_comm, Nat.Div0.mod_add. apply Nat.mod_small; exact Hc.
Qed.

(** X7. The flattened pressure vector and the flattened mesh coordinates
    use the same row-major order: for a mesh with rows of length [n], entry
    [r*n + c] of [XYZ_airfoil_calc] is the coordinate of mesh point
    [(r, c)], and entry [r*n + c] of [delta_p1_calc] is the pressure jump
    at [(r, c)] times [dx[c]] times [dy]. *)
Theorem flattening_aligned
    (create_airf_mesh : R -> R -> nat -> nat -> ndarray3 * (nat -> R) * R)
    (Phi_2D : R -> list R -> R -> R -> string -> nat -> nat -> R)
    (delta_p :
       R -> R -> R -> R -> R -> R -> ndarray3 -> R -> nat -> nat -> C)
    (d : R) (Ky : list R) (kyi comp r c : nat) :
  (c < dim2 (XYZ_airfoil create_airf_mesh d))%nat ->
  let n := dim2 (XYZ_airfoil create_airf_mesh d) in
  XYZ_airfoil_calc create_airf_mesh d comp (r * n + c)%nat =
    item3 (XYZ_airfoil create_airf_mesh d) comp r c /\
  delta_p1_calc create_airf_mesh Phi_2D delta_p d Ky kyi (r * n + c)%nat =
    Cmul (Cmul (delta_p Script.rho0 Script.b
                  (sqrt (Phi2 Phi_2D Ky kyi)) Script.Ux Script.Kx
                  (nth kyi Ky 0)
                  (slice_0_2 (XYZ_airfoil create_airf_mesh d))
                  Script.Mach r c)
               (RtoC (dx create_airf_mesh d c)))
         (RtoC (dy create_airf_mesh d)).
Proof.
  intros Hc n.
  destruct (flat_index r c n Hc) as [Hq Hr].
  unfold XYZ_airfoil_calc, reshape_3, delta_p1_calc. cbv zeta.
  fold n. rewrite Hq, Hr. split; reflexivity.
Qed.

Lemma flattening_aligned_witness :
  (3 < dim2 (XYZ_airfoil flat_mesh Script.d))%nat /\
  XYZ_airfoil_calc flat_mesh Script.d 0%nat
    (2 * dim2 (XYZ_airfoil flat_mesh Script.d) + 3)%nat =
  item3 (XYZ_airfoil flat_mesh Script.d) 0%nat 2%nat 3%nat.
Proof.
  assert (Hc : (3 < dim2 (XYZ_airfoil flat_mesh Script.d))%nat)
    by (unfold XYZ_airfoil, flat_mesh, Script.Nx; simpl; lia).
  split; [exact Hc|].
  exact (proj1 (flattening_aligned flat_mesh unit_spectrum unit_jump
                  Script.d [0; 1] 0%nat 0%nat 2%nat 3%nat Hc)).
Defined.

(** ** The far-field arcs (lines 99-107) *)

Lemma theta_farfield_nth m :
  (m <= 180)%nat ->
  nth m theta_farfield 0 = (INR m - 90) * (PI / 180).
Proof.
  intros Hm. unfold theta_farfield.
  rewrite linspace_nat_nth by (unfold Script.M_farfield; lia).
  change (INR (Script.M_farfield - 1)) with (INR 180).
  replace (INR 180) with 180 by (rewrite (INR_IZR_INZ 180); reflexivity).
  field.
Qed.

(** X9. Both arcs lie below the aerofoil and within [|x| <= R]: every
    observer [m <= 180] has [z <= 0] and [-R <= x <= R], and the arc
    starts at [x = -R] and ends at [x = +R]. *)
Theorem arc_geometry (m : nat) :
  (m <= 180)%nat ->
  z_farfield m <= 0 /\
  - Script.R_farfield <= x_farfield m <= Script.R_farfield /\
  x_farfield 0 = - Script.R_farfield /\
  x_farfield 180 = Script.R_farfield.
Proof.
  intros Hm. pose proof PI_RGT_0 as Hpi.
  assert (HR : 0 < Script.R_farfield) by (unfold Script.R_farfield; lra).
  assert (H0 : nth 0 theta_farfield 0 = - (PI / 2)).
  { rewrite theta_farfield_nth by lia. simpl. field. }
  assert (H180 : nth 180 theta_farfield 0 = PI / 2).
  { rewrite theta_farfield_nth by lia.
    replace (INR 180) with 180 by (rewrite (INR_IZR_INZ 180); reflexivity).
    field. }
  split.
  { unfold z_farfield. rewrite theta_farfield_nth by exact Hm.
    assert (0 <= INR m <= 180).
    { split; [apply pos_INR|].
      replace 180 with (INR 180)
        by (rewrite (INR_IZR_INZ 180); reflexivity).
      apply le_INR; exact Hm. }
    assert (0 <= cos ((INR m - 90) * (PI / 180))).
    { apply cos_ge_0; nra. }
    nra. }
  split.
  { unfold x_farfield.
    pose proof (SIN_bound (nth m theta_farfield 0)) as [Hlo Hhi].
    split; nra. }
  unfold x_farfield. rewrite H0, H180, sin_neg, sin_PI2. split; ring.
Qed.

Lemma arc_geometry_witness :
  (45 <= 180)%nat /\
  z_farfield 45 <= 0 /\
  - Script.R_farfield <= x_farfield 45 <= Script.R_farfield.
Proof.
  assert (Hm : (45 <= 180)%nat) by lia.
  split; [exact Hm|].
  destruct (arc_geometry 45 Hm) as (Hz & Hx & _).
  split; [exact Hz | exact Hx].
Defined.

(** ** More on the sampled grid (lines 111-131) *)

(** X10. For a positive half span the sampled wavenumbers are strictly
    increasing: [Ky[i] < Ky[i+1]] along the whole grid. *)
Theorem grid_increasing (ky_crit d : R) :
  0 < d ->
  exists N_ky Ky,
    sampler ky_crit d = Some (N_ky, Ky) /\
    List.length Ky = Z.to_nat N_ky /\
    (forall i, (S i < List.length Ky)%nat ->
       nth i Ky 0 < nth (S i) Ky 0).
Proof.
  intros Hd.
  destruct (sampler_cases ky_crit d Hd)
    as (N_ky & Ky & lo & hi & Hs & HN & HU & Hlh & Hreg).
  pose proof HU as (Hlen & Hn & Hnth).
  pose proof (INR_pred_pos _ Hn) as Hpos.
  exists N_ky, Ky. split; [exact Hs|]. split; [exact Hlen|].
  rewrite Hlen. intros i Hi.
  pose proof (uniform_grid_step _ _ _ _ i HU Hi) as Hstep.
  assert (0 < (hi - lo) / INR (Z.to_nat N_ky - 1))
    by (apply Rdiv_lt_0_compat; lra).
  lra.
Qed.

(** X11. For a positive half span the grid runs from
    [-max(ky_T, ky_crit)] to [+max(ky_T, ky_crit)]: it always contains
    the whole band [[-ky_crit, +ky_crit]] and never less than one period
    of the kernel on either side. *)
Theorem grid_span (ky_crit d : R) :
  0 < d ->
  exists N_ky Ky,
    sampler ky_crit d = Some (N_ky, Ky) /\
    nth 0 Ky 0 = - Rmax (ky_T_of d) ky_crit /\
    nth (List.length Ky - 1) Ky 0 = Rmax (ky_T_of d) ky_crit /\
    nth 0 Ky 0 <= - ky_crit /\
    ky_crit <= nth (List.length Ky - 1) Ky 0.
Proof.
  intros Hd.
  destruct (sampler_cases ky_crit d Hd)
    as (N_ky & Ky & lo & hi & Hs & HN & HU & Hlh & Hreg).
  pose proof HU as (Hlen & Hn & Hnth).
  exists N_ky, Ky. split; [exact Hs|].
  rewrite Hlen, (uniform_grid_first _ _ _ _ HU),
    (uniform_grid_last _ _ _ _ HU).
  destruct Hreg as [(Hlt & _ & -> & ->)|(Hge & _ & -> & ->)].
  - rewrite Rmax_left by lra. repeat split; lra.
  - rewrite Rmax_right by lra. repeat split; lra.
Qed.



Lemma grid_increasing_witness :
  0 < Script.d /\
  exists N_ky Ky,
    sampler Script.ky_crit Script.d = Some (N_ky, Ky) /\
    (forall i, (S i < List.length Ky)%nat ->
       nth i Ky 0 < nth (S i) Ky 0).
Proof.
  split; [exact scenario_d_pos|].
  destruct (grid_increasing Script.ky_crit Script.d scenario_d_pos)
    as (N_ky & Ky & Hs & _ & Hinc).
  exists N_ky, Ky. split; [exact Hs | exact Hinc].
Defined.

Lemma grid_span_witness :
  0 < Script.d /\
  exists N_ky Ky,
    sampler Script.ky_crit Script.d = Some (N_ky, Ky) /\
    nth 0 Ky 0 <= - Script.ky_crit /\
    Script.ky_crit <= nth (List.length Ky - 1) Ky 0.
Proof.
  split; [exact scenario_d_pos|].
  destruct (grid_span Script.ky_crit Script.d scenario_d_pos)
    as (N_ky & Ky & Hs & _ & _ & Hlo & Hhi).
  exists N_ky, Ky. split; [exact Hs|]. split; [exact Hlo | exact Hhi].
Defined.

Lemma Rdiv_pos_neg a b : 0 < a -> b < 0 -> a / b < 0.
Proof.
  intros Ha Hb.
  assert (0 < a / - b) by (apply Rdiv_lt_0_compat; lra).
  replace (a / b) with (- (a / - b)) by (field; lra). lra.
Qed.

(** X13. A half span that is not positive is rejected before the first
    gust whenever the critical wavenumber is positive: [d = 0] raises on
    the division, and for [d < 0] the point count is at most 1, so either
    [np.linspace] raises or [Ky[1]] is out of range. *)
Theorem nonpositive_span_rejected
    (create_airf_mesh : R -> R -> nat -> nat -> ndarray3 * (nat -> R) * R)
    (Phi_2D : R -> list R -> R -> R -> string -> nat -> nat -> R)
    (delta_p :
       R -> R -> R -> R -> R -> R -> ndarray3 -> R -> nat -> nat -> C)
    (dipole3D :
       (nat -> nat -> R) -> (nat -> nat -> R) -> R -> string ->
       string * R -> Matrix Script.M_farfield (Script.Nx * Script.Ny))
    (ky_crit d : R) :
  d <= 0 -> 0 < ky_crit ->
  pipeline create_airf_mesh Phi_2D delta_p dipole3D ky_crit d = None /\
  (sampler ky_crit d = None \/
   exists N_ky Ky, sampler ky_crit d = Some (N_ky, Ky) /\
                   (List.length Ky <= 1)%nat /\ bin_width Ky = None).
Proof.
  intros Hd Hk. unfold pipeline.
  assert (Hs : sampler ky_crit d = None \/
               exists N_ky Ky, sampler ky_crit d = Some (N_ky, Ky) /\
                 (List.length Ky <= 1)%nat /\ bin_width Ky = None).
  { unfold sampler, low_freq, ky_T_of.
    destruct (Req_dec_T d 0) as [E|Hne]; [left; reflexivity|].
    assert (Hneg : d < 0) by lra.
    pose proof PI_RGT_0 as Hpi.
    assert (HT : 2 * PI / d < 0) by (apply Rdiv_pos_neg; lra).
    destruct (Rlt_dec ky_crit (2 * PI / d)) as [Hlt|_]; [lra|].
    set (x := 2 * ky_crit / (2 * PI / d) * 20).
    assert (Hx : x < 0).
    { unfold x.
      assert (2 * ky_crit / (2 * PI / d) < 0)
        by (apply Rdiv_pos_neg; lra).
      lra. }
    assert (HN : (Zceil x + 1 <= 1)%Z).
    { pose proof (Zceil_bound x) as [Hlo _].
      assert (Hz : (Zceil x < 1)%Z) by (apply lt_IZR; lra). lia. }
    unfold linspace.
    destruct (Z.ltb_spec (Zceil x + 1) 0) as [_|Hge]; [left; reflexivity|].
    right. eexists; eexists. split; [reflexivity|].
    assert (Hlen : (List.length (linspace_nat (- ky_crit) ky_crit
                                   (Z.to_nat (Zceil x + 1))) <= 1)%nat)
      by (rewrite linspace_nat_length; lia).
    split; [exact Hlen|].
    unfold bin_width, getitem.
    rewrite (proj2 (nth_error_None _ 1%nat)) by exact Hlen.
    reflexivity. }
  split; [|exact Hs].
  destruct Hs as [->|(N_ky & Ky & -> & _ & ->)]; reflexivity.
Qed.

Lemma nonpositive_span_rejected_witness :
  -1 <= 0 /\ 0 < 1 /\
  pipeline flat_mesh unit_spectrum unit_jump unit_green 1 (-1) = None.
Proof.
  assert (Hd : -1 <= 0) by lra.
  assert (Hk : 0 < 1) by lra.
  split; [exact Hd|]. split; [exact Hk|].
  exact (proj1 (nonpositive_span_rejected flat_mesh unit_spectrum unit_jump
                  unit_green 1 (-1) Hd Hk)).
Defined.

(** ** The scalar prelude (lines 42-76) *)

Lemma prelude_agrees :
  Script.f0 = Prelude.f0 Script.kc Script.c0 Script.b /\
  Script.k0 = Prelude.k0 Script.kc Script.c0 Script.b /\
  Script.beta = Prelude.beta Script.Ux Script.c0 /\
  Script.Kx = Prelude.Kx Script.kc Script.c0 Script.b Script.Ux /\
  Script.ky_crit =
    Prelude.ky_crit Script.kc Script.c0 Script.b Script.Ux /\
  Script.mu_a = Prelude.mu_a Script.kc Script.c0 Script.b Script.Ux.
Proof. repeat split; reflexivity. Qed.




(** On the script's literals the three identities also hold bit for bit
    in binary64, while [mu_a] and [k0*b/beta**2] differ in the last
    place. *)
Lemma wavenumber_identities_binary64 :
  PrimFloat.eqb (PrimFloat.mul Binary64.ac_wavelength Binary64.f0)
    Binary64.c0 = true /\
  PrimFloat.eqb
    (PrimFloat.mul Binary64.k0
       (PrimFloat.mul (Binary64.float_of_Z 2) Binary64.b))
    Binary64.kc = true /\
  PrimFloat.eqb (PrimFloat.mul Binary64.Kx Binary64.Mach) Binary64.k0
    = true /\
  PrimFloat.eqb Binary64.mu_a
    (PrimFloat.div (PrimFloat.mul Binary64.k0 Binary64.b)
       (PrimFloat.mul Binary64.beta Binary64.beta)) = false.
Proof. repeat split; reflexivity. Qed.




(** ** The script as written *)

(** X16. With its own literals the script takes the low-frequency
    branch and samples 41 gusts, and its bin width lies between 1.3962
    and 1.3963 rad/m; the binary64 run gives the same branch and count,
    with [dky = 1.396263401595462]. *)
Theorem script_run :
  (low_freq Script.ky_crit Script.d = true /\
   exists Ky dky,
     sampler Script.ky_crit Script.d = Some (41%Z, Ky) /\
     List.length Ky = 41%nat /\
     bin_width Ky = Some dky /\
     1.3962 < dky < 1.3963) /\
  (Binary64.low_freq Binary64.ky_crit Binary64.d = true /\
   Binary64.sampler Binary64.ky_crit Binary64.d
     = Some (41%Z, Binary64.Ky) /\
   List.length Binary64.Ky = 41%nat /\
   Binary64.bin_width Binary64.Ky = Some Binary64.dky_printed).
Proof.
  split.
  - pose proof scenario_d_pos as Hd. pose proof PI_bounds as [Hl Hu].
    split; [exact scenario_low_freq|].
    assert (Hlow : Script.ky_crit < 2 * PI / Script.d).
    { pose proof scenario_low_freq as H. unfold low_freq in H.
      destruct (Rlt_dec Script.ky_crit (2 * PI / Script.d));
        [assumption | discriminate]. }
    pose proof (sampler_low Script.ky_crit Script.d ltac:(lra) Hlow) as Hs.
    pose proof (linspace_nat_uniform (- (2 * PI / Script.d))
                  (2 * PI / Script.d) 41 ltac:(lia)) as HU.
    pose proof (uniform_grid_bin_width _ _ _ _ HU) as Hb.
    assert (Hdky : (2 * PI / Script.d - - (2 * PI / Script.d))
                   / INR (41 - 1) = PI / (10 * Script.d)).
    { change (INR (41 - 1)) with (INR 40).
      replace (INR 40) with 40 by (rewrite (INR_IZR_INZ 40); reflexivity).
      field. lra. }
    rewrite Hdky in Hb.
    exists (linspace_nat (- (2 * PI / Script.d)) (2 * PI / Script.d) 41),
      (PI / (10 * Script.d)).
    split; [exact Hs|]. split; [apply linspace_nat_length|].
    split; [exact Hb|].
    unfold Script.d. split.
    + apply Rdiv_gt_lower; lra.
    + apply Rdiv_lt_upper; lra.
  - repeat split; reflexivity.
Qed.

(** ** Levels in dB (lines 172-177 and 201) *)

Lemma Cabs_div_real s r :
  0 <= s -> 0 < r -> Cabs (Cdiv (RtoC s) (RtoC r)) = s / r.
Proof.
  intros Hs Hr. unfold Cabs, Cnorm2, Cdiv, RtoC, Re, Im. cbn [fst snd].
  replace ((s * r + 0 * 0) / (r * r + 0 * 0) *
           ((s * r + 0 * 0) / (r * r + 0 * 0)) +
           (0 * r - s * 0) / (r * r + 0 * 0) *
           ((0 * r - s * 0) / (r * r + 0 * 0)))
    with (s / r * (s / r)) by (field; lra).
  apply sqrt_square. apply Rmult_le_pos; [exact Hs|].
  apply Rlt_le, Rinv_0_lt_compat; exact Hr.
Qed.

Lemma ln_10_pos : 0 < ln 10.
Proof. rewrite <- ln_1. apply ln_increasing; lra. Qed.

Lemma ln_nonpos_iff x : 0 < x -> (ln x <= 0 <-> x <= 1).
Proof.
  intros Hx. split; intros H.
  - destruct (Rle_lt_dec x 1) as [Hle|Hgt]; [exact Hle|].
    pose proof (ln_increasing 1 x ltac:(lra) Hgt) as Hln.
    rewrite ln_1 in Hln. lra.
  - destruct H as [Hlt | Heq]; [|rewrite Heq, ln_1; lra].
    pose proof (ln_increasing x 1 Hx Hlt) as Hln.
    rewrite ln_1 in Hln. lra.
Qed.

Lemma Spp_ref_pos : 0 < Script.Spp_ref.
Proof. unfold Script.Spp_ref; lra. Qed.

(** X17. For an accumulated value that is a non-negative real [s], the
    plotted level is [10*log10(s / 4.296e-8)] when [s > 0]: it is at most
    0 dB exactly when [s] does not exceed the reference [4.296e-8]; a
    spectrum value of zero has no finite level ([-inf]). *)
Theorem level_of_normalised (M : nat) (Spp_Xdir Spp_Ydir : Vector M)
    (i : nat) (s : R) :
  Spp_Xdir i = RtoC s -> 0 <= s ->
  (s = 0 -> level_dB (fst (normalise Spp_Xdir Spp_Ydir) i) = None) /\
  (0 < s ->
   level_dB (fst (normalise Spp_Xdir Spp_Ydir) i) =
     Some (10 * (ln (s / Script.Spp_ref) / ln 10)) /\
   (10 * (ln (s / Script.Spp_ref) / ln 10) <= 0 <->
    s <= Script.Spp_ref)).
Proof.
  intros HX Hs. pose proof Spp_ref_pos as Hr. pose proof ln_10_pos as H10.
  change (fst (normalise Spp_Xdir Spp_Ydir) i)
    with (Cdiv (Spp_Xdir i) (RtoC Script.Spp_ref)).
  rewrite HX. unfold level_dB, log10.
  rewrite (Cabs_div_real s Script.Spp_ref Hs Hr).
  split.
  - intros ->.
    destruct (Rlt_dec 0 (0 / Script.Spp_ref)) as [Hlt|_];
      [|reflexivity].
    exfalso. unfold Rdiv in Hlt. rewrite Rmult_0_l in Hlt. lra.
  - intros Hpos.
    assert (Hq : 0 < s / Script.Spp_ref)
      by (apply Rdiv_lt_0_compat; assumption).
    destruct (Rlt_dec 0 (s / Script.Spp_ref)) as [_|Hn];
      [|contradiction].
    split; [reflexivity|].
    assert (Hone : s / Script.Spp_ref <= 1 <-> s <= Script.Spp_ref).
    { split; intros H.
      - apply (Rmult_le_compat_r Script.Spp_ref) in H; [|lra].
        unfold Rdiv in H. rewrite Rmult_assoc, Rinv_l in H by lra. lra.
      - apply (Rmult_le_reg_r Script.Spp_ref); [exact Hr|].
        unfold Rdiv. rewrite Rmult_assoc, Rinv_l by lra. lra. }
    rewrite <- Hone, <- (ln_nonpos_iff _ Hq).
    split; intros H.
    + assert (Hdiv : ln (s / Script.Spp_ref) / ln 10 <= 0) by lra.
      apply (Rmult_le_compat_r (ln 10)) in Hdiv; [|lra].
      unfold Rdiv in Hdiv at 1.
      rewrite Rmult_assoc, Rinv_l in Hdiv by lra. lra.
    + assert (Hdiv : ln (s / Script.Spp_ref) / ln 10 <= 0).
      { apply (Rmult_le_reg_r (ln 10)); [exact H10|].
        unfold Rdiv at 1. rewrite Rmult_assoc, Rinv_l by lra. lra. }
      lra.
Qed.

Lemma level_of_normalised_witness :
  (fun _ : nat => RtoC 1) 0%nat = RtoC 1 /\ 0 <= 1 /\
  level_dB (fst (normalise (M := 1) (fun _ => RtoC 1) (fun _ => RtoC 1))
              0%nat) =
  Some (10 * (ln (1 / Script.Spp_ref) / ln 10)).
Proof.
  assert (HX : (fun _ : nat => RtoC 1) 0%nat = RtoC 1) by reflexivity.
  assert (Hs : 0 <= 1) by lra.
  split; [exact HX|]. split; [exact Hs|].
  destruct (level_of_normalised 1 (fun _ => RtoC 1) (fun _ => RtoC 1)
              0%nat 1 HX Hs) as [_ Hpos].
  exact (proj1 (Hpos ltac:(lra))).
Defined.
